(** * smmap.buf: the MappedMemoryBuffer over a memory cursor

    A shallow embedding of [src/smmap/buf.py].  The buffer owns a single
    slot, [_c], holding a reference to a cursor object that it shares with
    its creator.  All window bookkeeping lives in the cursor; the buffer
    only queries it, asks it to relocate ([use_region]) and releases it
    ([unuse_region]).

    Python objects are mutable and shared, so the embedding threads a store
    of cursor objects through every method, together with the trace of the
    mutating calls the buffer issued to cursors. *)

From Stdlib Require Import ZArith List Bool Lia.
Import ListNotations.
Local Open Scope Z_scope.

(** ** Python values *)

Definition byte := Byte.byte.
Definition str := list byte.

(** The exceptions that the methods of the buffer can raise. *)
Inductive PyError : Type :=
| AttributeError   (* a method looked up on [None] *)
| AssertionError   (* a failed [assert] *)
| ValueError       (* raised by [__init__] *)
| IndexError.      (* an index outside of a sequence *)

(** The error kinds of the specification and the exceptions that stand
    for them in the Python code. *)
Inductive ErrorKind : Type := InvalidRegion | NotBound | OutOfRange.

Definition kind_of (e : PyError) : ErrorKind :=
  match e with
  | ValueError => InvalidRegion
  | AttributeError | AssertionError => NotBound
  | IndexError => OutOfRange
  end.

Definition is_some {A : Type} (o : option A) : bool :=
  match o with Some _ => true | None => false end.

Definition len {A : Type} (s : list A) : Z := Z.of_nat (length s).

Definition sys_maxint : Z := 2 ^ 63 - 1.

(** [s[k]]: a negative index counts from the end; anything that still
    falls outside of the sequence raises [IndexError]. *)
Definition str_getitem (s : str) (k : Z) : option byte :=
  let k' := if k <? 0 then k + len s else k in
  if k' <? 0 then None else nth_error s (Z.to_nat k').

(** Bounds of [s[lo:hi]] are clipped to the sequence, a negative bound
    counting from the end. *)
Definition slice_bound (n k : Z) : Z :=
  if k <? 0 then Z.max 0 (k + n) else Z.min k n.

Definition str_getslice (s : str) (lo hi : Z) : str :=
  let lo' := slice_bound (len s) lo in
  let hi' := slice_bound (len s) hi in
  firstn (Z.to_nat (hi' - lo')) (skipn (Z.to_nat lo') s).

(** The bytes of absolute positions [[a, b)] of a resource: what one
    contiguous read of that range returns. *)
Definition sublist (data : str) (a b : Z) : str :=
  firstn (Z.to_nat (b - a)) (skipn (Z.to_nat a) data).

(** The positions [a, a+1, ..., a+n-1]. *)
Fixpoint positions (a : Z) (n : nat) : list Z :=
  match n with
  | O => []
  | S n' => a :: positions (a + 1) n'
  end.

(** ** The cursor interface

    [mman.MemoryCursor] is imported by the module but defined elsewhere:
    the buffer is written against the methods below.  [use_region] and
    [unuse_region] mutate the cursor, the others are queries. *)
Class MemoryCursor (C : Type) : Type := {
  is_valid : C -> bool;
  is_associated : C -> bool;
  includes_ofs : C -> Z -> bool;
  ofs_begin : C -> Z;
  ofs_end : C -> Z;
  buffer : C -> str;
  use_region : C -> Z -> Z -> Z -> C;   (* offset, size, flags *)
  unuse_region : C -> C
}.

(** ** Objects, store and effects *)

Definition ref := nat.

(** The mutating calls a buffer issues to cursor objects. *)
Inductive call : Type :=
| UseRegion (r : ref) (offset size flags : Z)
| UnuseRegion (r : ref).

Inductive outcome (A : Type) : Type :=
| Return (a : A)
| Raise (e : PyError)
| OutOfFuel.
Arguments Return {A} a.
Arguments Raise {A} e.
Arguments OutOfFuel {A}.

Section Buffer.
Context {C : Type} {cursor_ops : MemoryCursor C}.

(** The instance ([_c], the only slot), the cursor objects by reference
    and the calls issued so far. *)
Record state : Type := mkState {
  _c : option ref;
  heap : ref -> C;
  calls : list call
}.

Definition upd (h : ref -> C) (r : ref) (c : C) : ref -> C :=
  fun r' => if Nat.eqb r' r then c else h r'.

Definition M (A : Type) : Type := state -> outcome A * state.

Definition ret {A : Type} (a : A) : M A := fun s => (Return a, s).

Definition raise {A : Type} (e : PyError) : M A := fun s => (Raise e, s).

Definition out_of_fuel {A : Type} : M A := fun s => (OutOfFuel, s).

Definition bind {A B : Type} (m : M A) (k : A -> M B) : M B :=
  fun s =>
    match m s with
    | (Return a, s') => k a s'
    | (Raise e, s') => (Raise e, s')
    | (OutOfFuel, s') => (OutOfFuel, s')
    end.

Notation "x <- m ;; k" := (bind m (fun x => k))
  (at level 61, m at next level, right associativity).
Notation "m ;;; k" := (bind m (fun _ => k))
  (at level 61, right associativity).

(** [self._c] and [self._c = c] *)
Definition get_c : M (option ref) := fun s => (Return (_c s), s).

Definition set_c (c : option ref) : M unit :=
  fun s => (Return tt, mkState c (heap s) (calls s)).

(** [assert b] *)
Definition assert (b : bool) : M unit :=
  if b then ret tt else raise AssertionError.

(** A method call [c.m(...)]: on [None] the attribute lookup fails. *)
Definition method {A : Type} (c : option ref) (m : ref -> M A) : M A :=
  match c with
  | Some r => m r
  | None => raise AttributeError
  end.

Definition query {A : Type} (f : C -> A) (c : option ref) : M A :=
  method c (fun r s => (Return (f (heap s r)), s)).

Definition c_is_valid := query is_valid.
Definition c_is_associated := query is_associated.
Definition c_includes_ofs (c : option ref) (i : Z) := query (fun o => includes_ofs o i) c.
Definition c_ofs_begin := query ofs_begin.
Definition c_ofs_end := query ofs_end.
Definition c_buffer := query buffer.

(** [c.use_region(offset, size, flags)] relocates the window of the
    cursor object in place and returns the cursor itself. *)
Definition c_use_region (c : option ref) (offset size flags : Z) : M (option ref) :=
  method c (fun r s =>
    (Return (Some r),
     mkState (_c s)
             (upd (heap s) r (use_region (heap s r) offset size flags))
             (calls s ++ [UseRegion r offset size flags]))).

Definition c_unuse_region (c : option ref) : M unit :=
  method c (fun r s =>
    (Return tt,
     mkState (_c s)
             (upd (heap s) r (unuse_region (heap s r)))
             (calls s ++ [UnuseRegion r]))).

(** [a and b]: [b] is evaluated only when [a] is true. *)
Definition and_then (a b : M bool) : M bool :=
  x <- a ;; if x then b else ret false.

(** [b[k]] on the bytes of a window *)
Definition index (b : str) (k : Z) : M byte :=
  match str_getitem b k with
  | Some x => ret x
  | None => raise IndexError
  end.

(** ** The methods of [MappedMemoryBuffer] *)

(** [begin_access(cursor, offset, size, flags)]; [size] defaults to
    [sys_maxint] and the other numbers to zero.  In [if cursor:] a cursor
    object counts as true and [None] as false. *)
Definition begin_access (cursor : option ref) (offset size flags : Z) : M bool :=
  (match cursor with
   | Some _ => set_c cursor
   | None => ret tt
   end) ;;;
  ok <- and_then (c <- get_c ;; ret (is_some c))
                 (c <- get_c ;; c_is_associated c) ;;
  if ok then
    c <- get_c ;;
    c' <- c_use_region c offset size flags ;;
    c_is_valid c'
  else ret false.

Definition __init__ (cursor : option ref) (offset size flags : Z) : M unit :=
  set_c cursor ;;;
  match cursor with
  | None => ret tt
  | Some _ =>
      ok <- begin_access cursor offset size flags ;;
      if negb ok then raise ValueError else ret tt
  end.

Definition end_access : M unit :=
  c <- get_c ;;
  match c with
  | Some _ => c_unuse_region c
  | None => ret tt
  end.

Definition __del__ : M unit := end_access.

Definition cursor : M (option ref) := get_c.

(** [c.use_region(i, 1)] leaves the flags to their default, zero. *)
Definition __getitem__ (i : Z) : M byte :=
  c <- get_c ;;
  v <- c_is_valid c ;;
  assert v ;;;
  inc <- c_includes_ofs c i ;;
  (if negb inc then c_use_region c i 1 0 ;;; ret tt else ret tt) ;;;
  b <- c_buffer c ;;
  o <- c_ofs_begin c ;;
  index b (i - o).

(** The [while l:] loop of the slow path; [fuel] bounds the number of
    iterations, and the loop is left as soon as [l] is zero. *)
Fixpoint slow_path (fuel : nat) (c : option ref) (l ofs : Z) (md : str) : M str :=
  if l =? 0 then ret md
  else
    match fuel with
    | O => out_of_fuel
    | S fuel' =>
        c_use_region c ofs l 0 ;;;
        b <- c_buffer c ;;
        let d := str_getslice b 0 l in
        slow_path fuel' c (l - len d) (ofs + len d) (md ++ d)
    end.

Definition __getslice__ (fuel : nat) (i j : Z) : M str :=
  c <- get_c ;;
  v <- c_is_valid c ;;
  assert v ;;;
  fast <- and_then (b <- c_ofs_begin c ;; ret (b <=? i))
                   (e <- c_ofs_end c ;; ret (j <? e)) ;;
  if fast then
    b <- c_ofs_begin c ;;
    w <- c_buffer c ;;
    ret (str_getslice w (i - b) (j - b))
  else
    slow_path fuel c (j - i) i [].

(** Reading the given positions one at a time with [__getitem__]. *)
Fixpoint read_each (ps : list Z) : M str :=
  match ps with
  | [] => ret []
  | p :: ps' =>
      x <- __getitem__ p ;;
      xs <- read_each ps' ;;
      ret (x :: xs)
  end.

End Buffer.

Arguments state C : clear implicits.
Arguments M C A : clear implicits.

(** The calls by which a buffer asks the cursor [r] to relocate during
    a read: [use_region] with flags zero. *)
Definition relocation_of (r : ref) (e : call) : Prop :=
  match e with
  | UseRegion r' _ _ flags => r' = r /\ flags = 0
  | UnuseRegion _ => False
  end.

(** A computation that, started in [s], neither returns nor raises
    within any number of turns of its loop. *)
Definition diverges {C A : Type} (m : nat -> M C A) (s : state C) : Prop :=
  forall fuel : nat, fst (m fuel s) = OutOfFuel.

(** ** The contract of a cursor over a resource *)

(** Modelled from the spec: the contract of the cursor, whose code
    ([mman.MemoryCursor]) is not in [buf.py].  It is what the buffer
    relies on when it reads the bytes [data] of a resource through a
    cursor: the window is a range of the resource, the exposed bytes are
    exactly the bytes of the window, and a relocation to a position inside
    of the resource yields a window that starts at that position and holds
    at least one byte.  [Inv] is the invariant of the cursors that are
    associated with the resource. *)
Class CursorContract {C : Type} {cursor_ops : MemoryCursor C}
      (data : str) (Inv : C -> Prop) : Prop := {
  includes_ofs_window : forall c k,
    Inv c -> includes_ofs c k = (ofs_begin c <=? k) && (k <? ofs_end c);
  window_in_resource : forall c,
    Inv c -> 0 <= ofs_begin c <= ofs_end c /\ ofs_end c <= len data;
  buffer_window : forall c,
    Inv c -> buffer c = sublist data (ofs_begin c) (ofs_end c);
  use_region_inv : forall c offset size flags,
    Inv c -> Inv (use_region c offset size flags);
  use_region_covers : forall c offset size flags,
    Inv c -> 0 <= offset < len data -> 0 < size ->
    ofs_begin (use_region c offset size flags) = offset /\
    offset < ofs_end (use_region c offset size flags)
}.

(** ** A sliding-window cursor *)

(** Modelled from the spec: the cursor, [mman.MemoryCursor], which the
    module imports and whose code is not in [buf.py].  It is associated
    with a resource or not, has a window size [W] and at most one current
    window [[b, e)] of the resource.  A relocation to a position inside of
    the resource moves the window there, granting the requested length cut
    to the window size and to the end of the resource, and never less than
    the byte at the position; a relocation anywhere else leaves the cursor
    without a window.  Flags are passed through and not interpreted. *)
Record SlidingCursor : Type := mkCursor {
  resource : option str;
  window_size : Z;
  window : option (Z * Z)
}.

(** Modelled from the spec: [window_begin()], zero without a window. *)
Definition sc_ofs_begin (c : SlidingCursor) : Z :=
  match window c with Some (b, _) => b | None => 0 end.

(** Modelled from the spec: [window_end()], zero without a window. *)
Definition sc_ofs_end (c : SlidingCursor) : Z :=
  match window c with Some (_, e) => e | None => 0 end.

(** Modelled from the spec: [bytes()], exactly the bytes of the current
    window, none without a window. *)
Definition sc_buffer (c : SlidingCursor) : str :=
  match resource c, window c with
  | Some data, Some (b, e) => sublist data b e
  | _, _ => []
  end.

(** Modelled from the spec: [relocate(abs_offset, length, flags)]. *)
Definition sc_use_region (c : SlidingCursor) (offset size flags : Z) : SlidingCursor :=
  match resource c with
  | None => c
  | Some data =>
      if (0 <=? offset) && (offset <? len data) then
        let granted := Z.max 1 (Z.min size (Z.min (window_size c) (len data - offset))) in
        mkCursor (resource c) (window_size c) (Some (offset, offset + granted))
      else mkCursor (resource c) (window_size c) None
  end.

(** Modelled from the spec: [release()] gives up the window and keeps
    the association with the resource. *)
Definition sc_unuse_region (c : SlidingCursor) : SlidingCursor :=
  mkCursor (resource c) (window_size c) None.

(** Modelled from the spec: the cursor is valid when it has a window and
    associated when it has a resource. *)
#[export] Instance sliding_cursor : MemoryCursor SlidingCursor := {
  is_valid c := is_some (window c);
  is_associated c := is_some (resource c);
  includes_ofs c k := (sc_ofs_begin c <=? k) && (k <? sc_ofs_end c);
  ofs_begin := sc_ofs_begin;
  ofs_end := sc_ofs_end;
  buffer := sc_buffer;
  use_region := sc_use_region;
  unuse_region := sc_unuse_region
}.

(** The cursors associated with the resource [data] whose window, if they
    have one, lies inside of it. *)
Definition sliding_inv (data : str) (c : SlidingCursor) : Prop :=
  resource c = Some data /\
  match window c with
  | Some (b, e) => 0 <= b <= e /\ e <= len data
  | None => True
  end.

(** ** Sample objects *)

(** Ten bytes, ['a'] to ['j']. *)
Definition sample_data : str :=
  [Byte.x61; Byte.x62; Byte.x63; Byte.x64; Byte.x65;
   Byte.x66; Byte.x67; Byte.x68; Byte.x69; Byte.x6a].

(** A cursor over the ten bytes with a window size of four. *)
Definition sample_cursor (w : option (Z * Z)) : SlidingCursor :=
  mkCursor (Some sample_data) 4 w.

Definition unassociated_cursor : SlidingCursor := mkCursor None 4 None.

(** A buffer whose slot holds [c], in a store where every reference
    denotes the cursor [o], before any call was issued. *)
Definition sample_state (c : option ref) (o : SlidingCursor) : state SlidingCursor :=
  mkState c (fun _ => o) [].

(** * Properties *)

(** ** Ranges of a resource and Python's indexing *)

Lemma len_nonneg {A : Type} (s : list A) : 0 <= len s.
Proof. unfold len. lia. Qed.

Lemma firstn_then_firstn {A : Type} (n m : nat) (l : list A) :
  firstn n l ++ firstn m (skipn n l) = firstn (n + m) l.
Proof.
  revert l. induction n as [|n IH]; intros [|x l]; simpl; trivial.
  - now rewrite firstn_nil.
  - now rewrite IH.
Qed.

Lemma len_sublist (data : str) (a b : Z) :
  0 <= a <= b -> b <= len data -> len (sublist data a b) = b - a.
Proof.
  unfold sublist, len. intros Hab Hb.
  rewrite length_firstn, length_skipn. lia.
Qed.

Lemma sublist_empty (data : str) (a b : Z) : b <= a -> sublist data a b = [].
Proof.
  unfold sublist. intros H. now replace (Z.to_nat (b - a)) with 0%nat by lia.
Qed.

Lemma sublist_app (data : str) (a b c : Z) :
  0 <= a <= b -> b <= c ->
  sublist data a b ++ sublist data b c = sublist data a c.
Proof.
  unfold sublist. intros Hab Hbc.
  replace (Z.to_nat b) with (Z.to_nat (b - a) + Z.to_nat a)%nat by lia.
  rewrite <- skipn_skipn, firstn_then_firstn.
  f_equal. lia.
Qed.

(** Slicing a range of the resource with bounds that are not negative
    yields the range cut to what the first range holds. *)
Lemma getslice_sublist (data : str) (a b lo hi : Z) :
  0 <= a <= b -> b <= len data -> 0 <= lo -> 0 <= hi ->
  str_getslice (sublist data a b) lo hi =
  sublist data (a + Z.min lo (b - a)) (a + Z.min hi (b - a)).
Proof.
  intros Hab Hb Hlo Hhi. unfold str_getslice.
  rewrite len_sublist by assumption.
  unfold slice_bound.
  destruct (Z.ltb_spec lo 0) as [?|_]; [lia|].
  destruct (Z.ltb_spec hi 0) as [?|_]; [lia|].
  unfold sublist.
  rewrite skipn_firstn_comm, firstn_firstn, skipn_skipn.
  f_equal; [lia|]. f_equal. lia.
Qed.

Lemma getitem_sublist (data : str) (a b k : Z) :
  0 <= a <= k -> k < b ->
  str_getitem (sublist data a b) (k - a) = nth_error data (Z.to_nat k).
Proof.
  intros Hak Hkb. unfold str_getitem.
  destruct (Z.ltb_spec (k - a) 0) as [?|_]; [lia|].
  destruct (Z.ltb_spec (k - a) 0) as [?|_]; [lia|].
  unfold sublist. rewrite nth_error_firstn.
  destruct (Nat.ltb_spec (Z.to_nat (k - a)) (Z.to_nat (b - a))) as [_|?]; [|lia].
  rewrite nth_error_skipn. f_equal. lia.
Qed.

Lemma getitem_beyond (s : str) (k : Z) : len s <= k -> str_getitem s k = None.
Proof.
  intros H. pose proof (len_nonneg s) as Hs. unfold str_getitem.
  destruct (Z.ltb_spec k 0) as [?|_]; [lia|].
  destruct (Z.ltb_spec k 0) as [?|_]; [lia|].
  apply nth_error_None. unfold len in H. lia.
Qed.

Lemma getslice_same (s : str) (k : Z) : str_getslice s k k = [].
Proof.
  unfold str_getslice. now rewrite Z.sub_diag.
Qed.

Lemma firstn_one_skipn {A : Type} (l : list A) (n : nat) (x : A) :
  nth_error l n = Some x -> firstn 1 (skipn n l) = [x].
Proof.
  revert l. induction n as [|n IH]; intros [|y l]; simpl; try discriminate.
  - now intros [= ->].
  - apply IH.
Qed.

Lemma sublist_cons (data : str) (k : Z) (n : nat) (x : byte) :
  0 <= k -> nth_error data (Z.to_nat k) = Some x ->
  sublist data k (k + Z.of_nat (S n)) = x :: sublist data (k + 1) (k + 1 + Z.of_nat n).
Proof.
  intros Hk Hx.
  rewrite <- (sublist_app data k (k + 1)) by lia.
  replace (k + Z.of_nat (S n)) with (k + 1 + Z.of_nat n) by lia.
  unfold sublist at 1. replace (Z.to_nat (k + 1 - k)) with 1%nat by lia.
  now rewrite (firstn_one_skipn _ _ _ Hx).
Qed.

(** ** The sliding-window cursor honours the contract *)

Lemma sliding_contract (data : str) : CursorContract data (sliding_inv data).
Proof.
  split.
  - reflexivity.
  - intros c [_ Hw]. cbn. unfold sc_ofs_begin, sc_ofs_end.
    destruct (window c) as [[b e]|]; [lia|]. pose proof (len_nonneg data). lia.
  - intros c [Hr Hw]. cbn. unfold sc_buffer, sc_ofs_begin, sc_ofs_end. rewrite Hr.
    destruct (window c) as [[b e]|]; [reflexivity|].
    now rewrite sublist_empty by lia.
  - intros c offset size flags [Hr Hw]. cbn. unfold sc_use_region. rewrite Hr.
    destruct (Z.leb_spec 0 offset), (Z.ltb_spec offset (len data));
      unfold sliding_inv; cbn; (split; [reflexivity|]); trivial; lia.
  - intros c offset size flags [Hr Hw] Ho Hs. cbn.
    unfold sc_use_region, sc_ofs_begin, sc_ofs_end. rewrite Hr.
    destruct (Z.leb_spec 0 offset); [|lia].
    destruct (Z.ltb_spec offset (len data)); [|lia].
    cbn. lia.
Qed.

Lemma sliding_unuse_twice (c : SlidingCursor) :
  unuse_region (unuse_region c) = unuse_region c.
Proof. reflexivity. Qed.

(** ** The store *)

Section Store.
Context {C : Type} {cursor_ops : MemoryCursor C}.

Lemma upd_same (h : ref -> C) (r : ref) (c : C) : upd h r c r = c.
Proof. unfold upd. now rewrite Nat.eqb_refl. Qed.

End Store.

Ltac run :=
  unfold __getitem__, __getslice__, __init__, __del__, begin_access, end_access,
    cursor, and_then, c_is_valid, c_is_associated, c_includes_ofs, c_ofs_begin,
    c_ofs_end, c_buffer, c_use_region, c_unuse_region, query, method, assert,
    index, get_c, set_c, bind, ret, raise, out_of_fuel;
  cbn [_c heap calls fst snd is_some negb].

(** ** Facts that hold for every cursor *)

Section Frame.
Context {C : Type} {cursor_ops : MemoryCursor C}.

Lemma slow_path_done (fuel : nat) (c : option ref) (ofs : Z) (md : str) (s : state C) :
  slow_path fuel c 0 ofs md s = (Return md, s).
Proof. now destruct fuel. Qed.

Lemma slow_path_keeps_slot (fuel : nat) :
  forall (c : option ref) (l ofs : Z) (md : str) (s : state C),
    _c (snd (slow_path fuel c l ofs md s)) = _c s.
Proof.
  induction fuel as [|fuel IH]; intros c l ofs md s; cbn [slow_path];
    destruct (l =? 0); trivial.
  destruct c as [r|]; run; trivial.
  now rewrite IH.
Qed.

(** The fast path: a range that starts inside of the window and ends
    before the end of the window is cut out of the bytes of the window,
    and the cursor is not called upon to move. *)
Lemma getslice_fast_path (fuel : nat) (r : ref) (i j : Z) (s : state C) :
  _c s = Some r -> is_valid (heap s r) = true ->
  ofs_begin (heap s r) <= i -> j < ofs_end (heap s r) ->
  __getslice__ fuel i j s =
  (Return (str_getslice (buffer (heap s r))
             (i - ofs_begin (heap s r)) (j - ofs_begin (heap s r))), s).
Proof.
  intros Hc Hv Hi Hj. run. rewrite Hc, Hv.
  destruct (Z.leb_spec (ofs_begin (heap s r)) i); [|lia].
  destruct (Z.ltb_spec j (ofs_end (heap s r))); [|lia].
  reflexivity.
Qed.

(** Any other range is left to the loop of the slow path. *)
Lemma getslice_slow_path (fuel : nat) (r : ref) (i j : Z) (s : state C) :
  _c s = Some r -> is_valid (heap s r) = true ->
  i < ofs_begin (heap s r) \/ ofs_end (heap s r) <= j ->
  __getslice__ fuel i j s = slow_path fuel (Some r) (j - i) i [] s.
Proof.
  intros Hc Hv Hout. run. rewrite Hc, Hv.
  destruct (Z.leb_spec (ofs_begin (heap s r)) i);
    [destruct (Z.ltb_spec j (ofs_end (heap s r))); [lia|] |]; reflexivity.
Qed.

End Frame.

(** ** Reading ranges through relocations *)

Section Reading.
Context {C : Type} {cursor_ops : MemoryCursor C}.
Context (data : str) (Inv : C -> Prop) {contract : CursorContract data Inv}.

(** The loop of the slow path, started on a range that lies inside of the
    resource with at least one unit of fuel per byte, returns the bytes
    already read followed by the bytes of the range. *)
Lemma slow_path_reads (fuel : nat) :
  forall (r : ref) (l ofs : Z) (md : str) (s : state C),
    Inv (heap s r) -> 0 <= ofs -> 0 <= l -> ofs + l <= len data ->
    (Z.to_nat l <= fuel)%nat ->
    exists s',
      slow_path fuel (Some r) l ofs md s = (Return (md ++ sublist data ofs (ofs + l)), s') /\
      _c s' = _c s /\ Inv (heap s' r) /\
      exists rs, calls s' = calls s ++ rs /\ Forall (relocation_of r) rs.
Proof.
  induction fuel as [|fuel IH]; intros r l ofs md s HI Hofs Hl Hend Hfuel.
  - assert (l = 0) as -> by lia. exists s. cbn.
    rewrite sublist_empty, app_nil_r by lia. repeat split; trivial.
    exists []. now rewrite app_nil_r.
  - cbn [slow_path]. destruct (Z.eqb_spec l 0) as [->|Hl0].
    + exists s. unfold ret. rewrite sublist_empty, app_nil_r by lia.
      repeat split; trivial. exists []. now rewrite app_nil_r.
    + run. rewrite upd_same.
      set (c' := use_region (heap s r) ofs l 0).
      assert (Inv c') as HI' by now apply use_region_inv.
      destruct (use_region_covers (heap s r) ofs l 0 HI) as [Hb He]; [lia|lia|].
      fold c' in Hb, He.
      destruct (window_in_resource c' HI') as [Hw1 Hw2].
      rewrite (buffer_window c' HI'), Hb.
      rewrite getslice_sublist by lia.
      rewrite Z.min_l by lia. rewrite Z.add_0_r.
      set (k := Z.min l (ofs_end c' - ofs)).
      rewrite len_sublist by lia.
      replace (ofs + k - ofs) with k by lia.
      match goal with
      | |- context [slow_path fuel (Some r) ?l' ?o' ?m' ?s1] =>
          destruct (IH r l' o' m' s1) as (s' & Hrun & Hc & HI'' & rs & Hrs & Hall);
          [cbn; now rewrite upd_same | lia | lia | lia | lia |]
      end.
      exists s'. rewrite Hrun. split; [|split; [assumption|split; [assumption|]]].
      * rewrite <- app_assoc, sublist_app by lia.
        now replace (ofs + k + (l - k)) with (ofs + l) by lia.
      * exists (UseRegion r ofs l 0 :: rs). cbn in Hrs.
        rewrite Hrs, <- app_assoc. split; [reflexivity|].
        constructor; [now split | assumption].
Qed.

(** Both paths of a range read return the bytes of the range. *)
Lemma getslice_reads (fuel : nat) (r : ref) (i j : Z) (s : state C) :
  _c s = Some r -> is_valid (heap s r) = true -> Inv (heap s r) ->
  0 <= i <= j -> j <= len data -> (Z.to_nat (j - i) <= fuel)%nat ->
  exists s',
    __getslice__ fuel i j s = (Return (sublist data i j), s') /\
    _c s' = _c s /\ Inv (heap s' r) /\
    exists rs, calls s' = calls s ++ rs /\ Forall (relocation_of r) rs.
Proof.
  intros Hc Hv HI Hij Hj Hfuel.
  destruct (window_in_resource _ HI) as [Hw1 Hw2].
  destruct (Z_le_gt_dec (ofs_begin (heap s r)) i) as [Hb|Hb];
    [destruct (Z_lt_le_dec j (ofs_end (heap s r))) as [He|He]|].
  - exists s. rewrite (getslice_fast_path fuel r) by assumption.
    rewrite (buffer_window _ HI), getslice_sublist by lia.
    rewrite !Z.min_l by lia. split; [|repeat split; trivial].
    + do 2 f_equal; f_equal; lia.
    + exists []. now rewrite app_nil_r.
  - rewrite (getslice_slow_path fuel r) by (trivial; lia).
    destruct (slow_path_reads fuel r (j - i) i [] s) as (s' & Hrun & Hs');
      try assumption; try lia.
    exists s'. rewrite Hrun. split; [|assumption].
    now replace (i + (j - i)) with j by lia.
  - rewrite (getslice_slow_path fuel r) by (trivial; lia).
    destruct (slow_path_reads fuel r (j - i) i [] s) as (s' & Hrun & Hs');
      try assumption; try lia.
    exists s'. rewrite Hrun. split; [|assumption].
    now replace (i + (j - i)) with j by lia.
Qed.

(** A single byte inside of the window is read in place. *)
Lemma getitem_in_window (r : ref) (k : Z) (s : state C) :
  _c s = Some r -> is_valid (heap s r) = true -> Inv (heap s r) ->
  ofs_begin (heap s r) <= k < ofs_end (heap s r) ->
  exists x, nth_error data (Z.to_nat k) = Some x /\ __getitem__ k s = (Return x, s).
Proof.
  intros Hc Hv HI Hk.
  destruct (window_in_resource _ HI) as [Hw1 Hw2].
  destruct (nth_error data (Z.to_nat k)) as [x|] eqn:Hx.
  - exists x. split; [reflexivity|]. run. rewrite Hc, Hv.
    rewrite (includes_ofs_window _ _ HI).
    destruct (Z.leb_spec (ofs_begin (heap s r)) k); [|lia].
    destruct (Z.ltb_spec k (ofs_end (heap s r))); [|lia].
    cbn. rewrite (buffer_window _ HI), getitem_sublist by lia.
    now rewrite Hx.
  - apply nth_error_None in Hx. unfold len in Hw2. lia.
Qed.

Lemma read_each_in_window (r : ref) (s : state C) (n : nat) :
  forall k : Z,
    _c s = Some r -> is_valid (heap s r) = true -> Inv (heap s r) ->
    ofs_begin (heap s r) <= k -> k + Z.of_nat n <= ofs_end (heap s r) ->
    read_each (positions k n) s = (Return (sublist data k (k + Z.of_nat n)), s).
Proof.
  induction n as [|n IH]; intros k Hc Hv HI Hb He.
  - cbn. now rewrite sublist_empty by lia.
  - destruct (window_in_resource _ HI) as [Hw1 Hw2].
    destruct (getitem_in_window r k s Hc Hv HI) as (x & Hx & Hrun); [lia|].
    cbn [positions read_each]. unfold bind at 1. rewrite Hrun.
    unfold bind at 1. rewrite IH by (trivial; lia).
    unfold ret. now rewrite (sublist_cons data k n x) by (trivial; lia).
Qed.

(** C2: on a bound buffer over a resource of [len data] bytes, a range
    read [slice(i, j)] with [0 <= i <= j <= len data] returns, with one unit
    of fuel per requested byte, exactly [j - i] bytes: the bytes that one
    contiguous read of [[i, j)] yields, however small the windows that the
    cursor grants.  All that it asks of the cursor on the way is a
    sequence of relocations. *)
Theorem getslice_contiguous (fuel : nat) (r : ref) (i j : Z) (s : state C) :
  _c s = Some r -> is_valid (heap s r) = true -> Inv (heap s r) ->
  0 <= i <= j -> j <= len data -> (Z.to_nat (j - i) <= fuel)%nat ->
  fst (__getslice__ fuel i j s) = Return (sublist data i j) /\
  len (sublist data i j) = j - i /\
  exists rs, calls (snd (__getslice__ fuel i j s)) = calls s ++ rs /\
             Forall (relocation_of r) rs.
Proof.
  intros Hc Hv HI Hij Hj Hfuel.
  destruct (getslice_reads fuel r i j s) as (s' & Hrun & _ & _ & Hcalls); trivial.
  rewrite Hrun. split; [reflexivity|]. split; [apply len_sublist; lia|].
  exact Hcalls.
Qed.

(** C4: when [i <= j] and the window of the cursor holds all of [[i, j)],
    [slice(i, j)] returns the bytes that reading the positions
    [i, i+1, ..., j-1] one at a time with [at] returns. *)
Theorem getslice_agrees_with_getitem (fuel : nat) (r : ref) (i j : Z) (s : state C) :
  _c s = Some r -> is_valid (heap s r) = true -> Inv (heap s r) ->
  ofs_begin (heap s r) <= i -> i <= j -> j <= ofs_end (heap s r) ->
  (Z.to_nat (j - i) <= fuel)%nat ->
  exists bytes,
    fst (__getslice__ fuel i j s) = Return bytes /\
    fst (read_each (positions i (Z.to_nat (j - i))) s) = Return bytes.
Proof.
  intros Hc Hv HI Hb Hij He Hfuel.
  destruct (window_in_resource _ HI) as [Hw1 Hw2].
  exists (sublist data i j). split.
  - destruct (getslice_reads fuel r i j s) as (s' & Hrun & _); trivial; try lia.
    now rewrite Hrun.
  - rewrite (read_each_in_window r) by (trivial; lia).
    cbn. do 2 f_equal. lia.
Qed.

End Reading.

(** ** Reads past the end of the resource *)

Lemma getslice_of_nothing (lo hi : Z) : str_getslice [] lo hi = [].
Proof. unfold str_getslice. now rewrite skipn_nil, firstn_nil. Qed.

(** Once the cursor over the ten sample bytes is asked for ten more bytes
    from position ten on, every turn of the loop finds an empty window and
    asks again. *)
Lemma slow_path_stuck (fuel : nat) :
  forall (md : str) (s : state SlidingCursor),
    resource (heap s 0%nat) = Some sample_data ->
    fst (slow_path fuel (Some 0%nat) 10 10 md s) = OutOfFuel.
Proof.
  induction fuel as [|fuel IH]; intros md s Hr; [reflexivity|].
  cbn [slow_path Z.eqb]. run. rewrite upd_same.
  cbn [use_region buffer sliding_cursor]. unfold sc_use_region. rewrite Hr.
  cbn. apply IH. reflexivity.
Qed.

Section PastTheEnd.
Context {C : Type} {cursor_ops : MemoryCursor C}.
Context (data : str) (Inv : C -> Prop) {contract : CursorContract data Inv}.

(** The single-byte read does fail past the end of the resource: no
    window reaches the position, so that indexing the bytes of the window
    raises [IndexError]. *)
Lemma getitem_past_end (r : ref) (i : Z) (s : state C) :
  _c s = Some r -> is_valid (heap s r) = true -> Inv (heap s r) ->
  len data <= i ->
  fst (__getitem__ i s) = Raise IndexError.
Proof.
  intros Hc Hv HI Hi.
  destruct (window_in_resource _ HI) as [Hw1 Hw2].
  run. rewrite Hc, Hv. rewrite (includes_ofs_window _ _ HI).
  destruct (Z.ltb_spec i (ofs_end (heap s r))); [lia|].
  rewrite andb_false_r. cbn. rewrite upd_same.
  set (c' := use_region (heap s r) i 1 0).
  assert (Inv c') as HI' by now apply use_region_inv.
  destruct (window_in_resource _ HI') as [Hw1' Hw2'].
  rewrite (buffer_window _ HI'), getitem_beyond; [reflexivity|].
  rewrite len_sublist by lia. lia.
Qed.

End PastTheEnd.

(** C1, at the end of the resource: [slice(9, 20)] over the ten sample
    bytes reads the last byte, and from then on every relocation yields
    nothing while ten bytes remain to be read.  The loop has no check for
    that: the read raises no error and returns nothing, whatever the
    number of turns the loop is allowed. *)
Lemma getslice_past_end_never_fails :
  diverges (fun fuel => __getslice__ fuel 9 20)
           (sample_state (Some 0%nat) (sample_cursor (Some (0, 4)))).
Proof.
  intros [|fuel]; [reflexivity|].
  rewrite (getslice_slow_path _ 0%nat) by (cbn; trivial; lia).
  cbn [slow_path Z.sub Z.eqb Z.pos_sub Pos.pred_double Z.double Z.opp Pos.compare Pos.compare_cont].
  run. cbn. apply slow_path_stuck. reflexivity.
Qed.

(** ** The fast path and the empty range *)

(** C3, at the end of the window: with the window [[0, 4)] over the ten
    sample bytes, [slice(2, 4)] lies inside of the window, and yet the
    buffer takes the slow path: it asks the cursor for [use_region(2, 2)],
    which moves the window to [[2, 4)], before it returns the two bytes. *)
Theorem getslice_window_end_relocates :
  let s := sample_state (Some 0%nat) (sample_cursor (Some (0, 4))) in
  let s' := snd (__getslice__ 2 2 4 s) in
  ofs_begin (heap s 0%nat) <= 2 /\ 4 <= ofs_end (heap s 0%nat) /\
  fst (__getslice__ 2 2 4 s) = Return [Byte.x63; Byte.x64] /\
  calls s' = [UseRegion 0%nat 2 2 0] /\
  window (heap s' 0%nat) = Some (2, 4).
Proof. cbn. repeat split; discriminate. Qed.

Section Lifecycle.
Context {C : Type} {cursor_ops : MemoryCursor C}.

(** C9: on a bound buffer whose cursor is valid, [slice(i, i)] returns the
    empty sequence for every [i], and leaves the buffer, the cursors and
    the calls issued as they were: no relocation is requested. *)
Theorem getslice_empty_range (fuel : nat) (r : ref) (i : Z) (s : state C) :
  _c s = Some r -> is_valid (heap s r) = true ->
  __getslice__ fuel i i s = (Return [], s).
Proof.
  intros Hc Hv.
  destruct (Z_le_gt_dec (ofs_begin (heap s r)) i) as [Hb|Hb];
    [destruct (Z_lt_le_dec i (ofs_end (heap s r))) as [He|He]|].
  - rewrite (getslice_fast_path fuel r) by assumption. now rewrite getslice_same.
  - rewrite (getslice_slow_path fuel r), Z.sub_diag by (trivial; lia).
    apply slow_path_done.
  - rewrite (getslice_slow_path fuel r), Z.sub_diag by (trivial; lia).
    apply slow_path_done.
Qed.

(** C5: a read on a buffer without a cursor, or with a cursor that reports
    invalid, raises an error of the kind [NotBound] before anything is read
    or relocated; so does [at(0)] right after a construction without a
    cursor. *)
Theorem read_unbound_rejected (s : state C) (i j : Z) (fuel : nat) :
  (forall offset size flags : Z,
     fst (bind (__init__ None offset size flags) (fun _ => __getitem__ 0) s)
     = Raise AttributeError /\ kind_of AttributeError = NotBound) /\
  (_c s = None \/ (exists r, _c s = Some r /\ is_valid (heap s r) = false) ->
   (exists e, __getitem__ i s = (Raise e, s) /\ kind_of e = NotBound) /\
   (exists e, __getslice__ fuel i j s = (Raise e, s) /\ kind_of e = NotBound)).
Proof.
  split; [now split|].
  intros [Hc|(r & Hc & Hv)].
  - split; exists AttributeError; run; now rewrite Hc.
  - split; exists AssertionError; run; now rewrite Hc, Hv.
Qed.

(** C7: [begin_access] works on the cursor that is supplied or else on the
    stored one.  Without such a cursor, or with one that is not associated,
    it returns [False] and calls nothing; with an associated cursor it
    issues [use_region(offset, size, flags)] and returns what [is_valid]
    says afterwards.  It never raises. *)
Theorem begin_access_outcome (c : option ref) (offset size flags : Z) (s : state C) :
  let effective := match c with Some r => Some r | None => _c s end in
  begin_access c offset size flags s =
  match effective with
  | None => (Return false, s)
  | Some r =>
      if is_associated (heap s r) then
        (Return (is_valid (use_region (heap s r) offset size flags)),
         mkState (Some r)
                 (upd (heap s) r (use_region (heap s r) offset size flags))
                 (calls s ++ [UseRegion r offset size flags]))
      else (Return false, mkState (Some r) (heap s) (calls s))
  end.
Proof.
  destruct s as [slot h cs]. destruct c as [r|]; [|destruct slot as [r|]]; run;
    try reflexivity;
    destruct (is_associated (h r)); cbn; now rewrite ?upd_same.
Qed.

(** C6: a construction with a cursor stores it and performs the bind; it
    raises [ValueError], the [InvalidRegion] error, exactly when the bind
    returns [False], and then the cursor holds no window and the
    destructor runs without an error.  A construction without a cursor
    succeeds and calls nothing. *)
Theorem init_outcome (offset size flags : Z) (s : state C) :
  __init__ None offset size flags s = (Return tt, mkState None (heap s) (calls s)) /\
  forall r : ref,
    (is_valid (heap s r) = true -> is_associated (heap s r) = true) ->
    exists (ok : bool) (s' : state C),
      begin_access (Some r) offset size flags
        (mkState (Some r) (heap s) (calls s)) = (Return ok, s') /\
      __init__ (Some r) offset size flags s =
        (if ok then Return tt else Raise ValueError, s') /\
      kind_of ValueError = InvalidRegion /\
      (ok = false -> is_valid (heap s' r) = false /\ fst (__del__ s') = Return tt).
Proof.
  split; [reflexivity|]. intros r Hva. run.
  destruct (is_associated (heap s r)) eqn:Ha; cbn.
  - rewrite upd_same.
    destruct (is_valid (use_region (heap s r) offset size flags)) eqn:Hv;
      do 2 eexists; (split; [reflexivity|]); (split; [reflexivity|]);
      (split; [reflexivity|]); [discriminate|].
    intros _. cbn. now rewrite upd_same.
  - do 2 eexists; (split; [reflexivity|]); (split; [reflexivity|]);
      (split; [reflexivity|]). intros _. cbn. split; [|reflexivity].
    destruct (is_valid (heap s r)); [|reflexivity].
    specialize (Hva eq_refl). congruence.
Qed.

(** C8: [end_access] never fails.  On a buffer without a cursor it does
    nothing at all.  After a release, a second release or the destructor
    succeeds too, hands the release to the cursor once more, and leaves
    the buffer and every cursor as the first release left them, the
    release of the cursor being safe to repeat. *)
Theorem end_access_idempotent (s : state C) :
  (forall c : C, unuse_region (unuse_region c) = unuse_region c) ->
  (_c s = None -> end_access s = (Return tt, s)) /\
  fst (end_access s) = Return tt /\
  let s1 := snd (end_access s) in
  let s2 := snd (end_access s1) in
  __del__ s1 = end_access s1 /\
  fst (end_access s1) = Return tt /\
  _c s2 = _c s1 /\ (forall r, heap s2 r = heap s1 r) /\
  (forall r, _c s = Some r -> calls s2 = calls s ++ [UnuseRegion r; UnuseRegion r]).
Proof.
  intros Hidem. run. destruct (_c s) as [r|] eqn:Hc; cbn.
  - rewrite Hc. cbn. rewrite upd_same, Hidem.
    repeat split; trivial.
    + congruence.
    + intros r'. unfold upd. now destruct (Nat.eqb r' r).
    + intros r' [= <-]. now rewrite <- app_assoc.
  - destruct s as [slot h cs]. cbn in *. subst slot. cbn.
    repeat split; trivial. discriminate.
Qed.

(** C10: reads and [end_access] leave the stored cursor alone, and so does
    a [begin_access] without a cursor, which behaves as a [begin_access]
    with the stored cursor supplied; after [end_access] the accessor
    [cursor()] returns the cursor it returned before. *)
Theorem stored_cursor_frame (fuel : nat) (i j offset size flags : Z) (s : state C) :
  _c (snd (__getitem__ i s)) = _c s /\
  _c (snd (__getslice__ fuel i j s)) = _c s /\
  _c (snd (end_access s)) = _c s /\
  _c (snd (__del__ s)) = _c s /\
  _c (snd (cursor s)) = _c s /\
  _c (snd (begin_access None offset size flags s)) = _c s /\
  begin_access None offset size flags s = begin_access (_c s) offset size flags s /\
  fst (bind end_access (fun _ => cursor) s) = fst (cursor s).
Proof.
  repeat split.
  - run. destruct (_c s) as [r|] eqn:Hc; cbn; trivial.
    destruct (is_valid (heap s r)); cbn; trivial.
    destruct (includes_ofs (heap s r) i); cbn;
      match goal with |- context [str_getitem ?b ?k] => destruct (str_getitem b k) end;
      cbn; trivial.
  - run. destruct (_c s) as [r|] eqn:Hc; cbn; trivial.
    destruct (is_valid (heap s r)); cbn; trivial.
    destruct (ofs_begin (heap s r) <=? i); cbn;
      [destruct (j <? ofs_end (heap s r)); cbn|]; trivial;
      now rewrite slow_path_keeps_slot.
  - run. now destruct (_c s) eqn:Hc.
  - run. now destruct (_c s) eqn:Hc.
  - destruct s as [[r|] h cs]; run; trivial.
    now destruct (is_associated (h r)).
  - destruct s as [[r|] h cs]; reflexivity.
  - destruct s as [[r|] h cs]; reflexivity.
Qed.

End Lifecycle.

(** ** The properties on the sample buffer *)

(** Ten bytes through windows of four: three relocations, one read. *)
Lemma getslice_contiguous_witness :
  fst (__getslice__ 10 0 10 (sample_state (Some 0%nat) (sample_cursor (Some (0, 4)))))
  = Return (sublist sample_data 0 10) /\
  len (sublist sample_data 0 10) = 10 - 0 /\
  exists rs,
    calls (snd (__getslice__ 10 0 10
                  (sample_state (Some 0%nat) (sample_cursor (Some (0, 4))))))
    = calls (sample_state (Some 0%nat) (sample_cursor (Some (0, 4)))) ++ rs /\
    Forall (relocation_of 0%nat) rs.
Proof.
  apply (getslice_contiguous sample_data (sliding_inv sample_data)
           (contract := sliding_contract sample_data) 10 0%nat 0 10
           (sample_state (Some 0%nat) (sample_cursor (Some (0, 4))))).
  - reflexivity.
  - reflexivity.
  - split; [reflexivity|]. cbn. lia.
  - lia.
  - cbn. lia.
  - cbn. lia.
Defined.

(** The range [[1, 4)] up to the end of the window [[0, 4)]. *)
Lemma getslice_agrees_with_getitem_witness :
  exists bytes,
    fst (__getslice__ 3 1 4 (sample_state (Some 0%nat) (sample_cursor (Some (0, 4)))))
    = Return bytes /\
    fst (read_each (positions 1 (Z.to_nat (4 - 1)))
           (sample_state (Some 0%nat) (sample_cursor (Some (0, 4)))))
    = Return bytes.
Proof.
  apply (getslice_agrees_with_getitem sample_data (sliding_inv sample_data)
           (contract := sliding_contract sample_data) 3 0%nat 1 4
           (sample_state (Some 0%nat) (sample_cursor (Some (0, 4))))).
  - reflexivity.
  - reflexivity.
  - split; [reflexivity|]. cbn. lia.
  - cbn. lia.
  - lia.
  - cbn. lia.
  - cbn. lia.
Defined.

Lemma getslice_empty_range_witness :
  __getslice__ 0 12 12 (sample_state (Some 0%nat) (sample_cursor (Some (0, 4))))
  = (Return [], sample_state (Some 0%nat) (sample_cursor (Some (0, 4)))).
Proof.
  apply (getslice_empty_range 0 0%nat 12
           (sample_state (Some 0%nat) (sample_cursor (Some (0, 4))))).
  - reflexivity.
  - reflexivity.
Defined.

(** A buffer without a cursor, and one whose cursor has no window. *)
Lemma read_unbound_rejected_witness :
  (exists e, __getitem__ 0 (sample_state None unassociated_cursor)
             = (Raise e, sample_state None unassociated_cursor) /\
             kind_of e = NotBound) /\
  (exists e, __getslice__ 5 0 3 (sample_state (Some 0%nat) (sample_cursor None))
             = (Raise e, sample_state (Some 0%nat) (sample_cursor None)) /\
             kind_of e = NotBound).
Proof.
  split.
  - apply (proj2 (read_unbound_rejected (sample_state None unassociated_cursor) 0 0 0)).
    left. reflexivity.
  - apply (proj2 (read_unbound_rejected
                    (sample_state (Some 0%nat) (sample_cursor None)) 0 3 5)).
    right. exists 0%nat. split; reflexivity.
Defined.

(** A construction at offset fifty of the ten bytes, with a cursor that
    holds the window [[0, 4)]. *)
Lemma init_outcome_witness :
  exists (ok : bool) (s' : state SlidingCursor),
    begin_access (Some 0%nat) 50 sys_maxint 0
      (mkState (Some 0%nat) (fun _ => sample_cursor (Some (0, 4))) []) = (Return ok, s') /\
    __init__ (Some 0%nat) 50 sys_maxint 0
      (sample_state None (sample_cursor (Some (0, 4)))) =
      (if ok then Return tt else Raise ValueError, s') /\
    kind_of ValueError = InvalidRegion /\
    (ok = false -> is_valid (heap s' 0%nat) = false /\ fst (__del__ s') = Return tt).
Proof.
  apply (proj2 (init_outcome 50 sys_maxint 0
                  (sample_state None (sample_cursor (Some (0, 4)))))
           0%nat).
  intros _. reflexivity.
Defined.

Lemma end_access_idempotent_witness :
  fst (end_access (sample_state (Some 0%nat) (sample_cursor (Some (0, 4))))) = Return tt.
Proof.
  apply (end_access_idempotent (sample_state (Some 0%nat) (sample_cursor (Some (0, 4))))).
  exact sliding_unuse_twice.
Defined.

(** * Further properties of the buffer *)

(** ** What a read asks of the cursors *)

Lemma getslice_reversed (s : str) (lo hi : Z) :
  0 <= hi <= lo -> str_getslice s lo hi = [].
Proof.
  intros H. pose proof (len_nonneg s) as Hs. unfold str_getslice, slice_bound.
  destruct (Z.ltb_spec lo 0) as [?|_]; [lia|].
  destruct (Z.ltb_spec hi 0) as [?|_]; [lia|].
  now replace (Z.to_nat (Z.min hi (len s) - Z.min lo (len s))) with 0%nat by lia.
Qed.

Lemma len_app {A : Type} (a b : list A) : len (a ++ b) = len a + len b.
Proof. unfold len. rewrite length_app. lia. Qed.

(** The first [l] bytes of a window are at most [l] bytes, and at most
    the window. *)
Lemma len_getslice_prefix (b : str) (l : Z) :
  0 <= l -> len (str_getslice b 0 l) = Z.min l (len b).
Proof.
  intros Hl. pose proof (len_nonneg b) as Hb. unfold str_getslice, slice_bound.
  destruct (Z.ltb_spec 0 0) as [?|_]; [lia|].
  destruct (Z.ltb_spec l 0) as [?|_]; [lia|].
  replace (Z.min 0 (len b)) with 0 by lia. cbn [Z.to_nat skipn]. unfold len in *.
  rewrite length_firstn. lia.
Qed.

Section Footprint.
Context {C : Type} {cursor_ops : MemoryCursor C}.

Lemma upd_other (h : ref -> C) (r r' : ref) (c : C) : r' <> r -> upd h r c r' = h r'.
Proof. unfold upd. intros H. now destruct (Nat.eqb_spec r' r). Qed.

(** Whatever the loop of the slow path comes to, all it did to the world
    was to ask the cursor at hand for relocations. *)
Lemma slow_path_footprint (fuel : nat) :
  forall (r : ref) (l ofs : Z) (md : str) (s : state C),
    let s' := snd (slow_path fuel (Some r) l ofs md s) in
    (exists rs, calls s' = calls s ++ rs /\ Forall (relocation_of r) rs) /\
    (forall r', r' <> r -> heap s' r' = heap s r').
Proof.
  induction fuel as [|fuel IH]; intros r l ofs md s; cbn [slow_path];
    (destruct (l =? 0); [cbn; split; [exists []; now rewrite app_nil_r | trivial]|]).
  - cbn. split; [exists []; now rewrite app_nil_r | trivial].
  - run.
    match goal with
    | |- context [slow_path fuel (Some r) ?l' ?o' ?m' ?s1] =>
        destruct (IH r l' o' m' s1) as [(rs & Hrs & Hall) Hframe]
    end.
    cbn [calls heap] in Hrs, Hframe. split.
    + exists (UseRegion r ofs l 0 :: rs). rewrite Hrs, <- app_assoc.
      split; [reflexivity|]. constructor; [now split | assumption].
    + intros r' Hr'. rewrite Hframe by assumption. now apply upd_other.
Qed.

(** With a range left to read and a turn to spend, the loop begins by
    asking for the whole of what is left. *)
Lemma slow_path_first_call (fuel : nat) (r : ref) (l ofs : Z) (md : str) (s : state C) :
  l <> 0 ->
  exists rs,
    calls (snd (slow_path (S fuel) (Some r) l ofs md s))
    = calls s ++ UseRegion r ofs l 0 :: rs.
Proof.
  intros Hl. cbn [slow_path]. destruct (Z.eqb_spec l 0) as [?|_]; [contradiction|].
  run.
  match goal with
  | |- context [slow_path fuel (Some r) ?l' ?o' ?m' ?s1] =>
      destruct (slow_path_footprint fuel r l' o' m' s1) as [(rs & Hrs & _) _]
  end.
  cbn [calls] in Hrs. exists rs. now rewrite Hrs, <- app_assoc.
Qed.

(** X1: a read touches no cursor but the stored one, and touches that one by
    relocations only: it never releases a window. *)
Theorem read_footprint (fuel : nat) (r : ref) (i j : Z) (s : state C) :
  _c s = Some r ->
  ((exists rs, calls (snd (__getitem__ i s)) = calls s ++ rs /\
               Forall (relocation_of r) rs) /\
   (forall r', r' <> r -> heap (snd (__getitem__ i s)) r' = heap s r')) /\
  ((exists rs, calls (snd (__getslice__ fuel i j s)) = calls s ++ rs /\
               Forall (relocation_of r) rs) /\
   (forall r', r' <> r -> heap (snd (__getslice__ fuel i j s)) r' = heap s r')).
Proof.
  intros Hc.
  assert (forall s0 : state C,
             (exists rs, calls s0 = calls s0 ++ rs /\ Forall (relocation_of r) rs) /\
             (forall r', r' <> r -> heap s0 r' = heap s0 r')) as Hsame.
  { intros s0. split; [exists []; now rewrite app_nil_r | trivial]. }
  split.
  - run. rewrite Hc. destruct (is_valid (heap s r)); cbn; [|apply Hsame].
    destruct (includes_ofs (heap s r) i); cbn;
      match goal with |- context [str_getitem ?b ?k] => destruct (str_getitem b k) end;
      cbn; try apply Hsame;
      (split; [exists [UseRegion r i 1 0]; split; [reflexivity|];
               constructor; [now split | constructor]
              | intros r' Hr'; now apply upd_other]).
  - run. rewrite Hc. destruct (is_valid (heap s r)); cbn; [|apply Hsame].
    destruct (ofs_begin (heap s r) <=? i); cbn;
      [destruct (j <? ofs_end (heap s r)); cbn; [apply Hsame|]|];
      apply slow_path_footprint.
Qed.

(** The loop returns, when it does, what it was asked for and no less. *)
Lemma slow_path_length (fuel : nat) :
  forall (c : option ref) (l ofs : Z) (md bytes : str) (s : state C),
    0 <= l ->
    fst (slow_path fuel c l ofs md s) = Return bytes ->
    len bytes = len md + l.
Proof.
  induction fuel as [|fuel IH]; intros c l ofs md bytes s Hl; cbn [slow_path];
    (destruct (Z.eqb_spec l 0) as [->|Hl0]; [cbn; intros [= <-]; lia|]).
  - discriminate.
  - destruct c as [r|]; run; [|discriminate].
    intros Hrun. apply IH in Hrun.
    + rewrite Hrun, len_app. lia.
    + rewrite len_getslice_prefix by assumption. lia.
Qed.

(** X2: a range read never hands out a short result: over any cursor whose
    window bytes are at least as many as the window is wide, whatever
    [slice(i, j)] with [i <= j] returns has exactly [j - i] bytes. *)
Theorem getslice_exact_length (fuel : nat) (r : ref) (i j : Z) (bytes : str) (s : state C) :
  _c s = Some r -> i <= j ->
  ofs_end (heap s r) - ofs_begin (heap s r) <= len (buffer (heap s r)) ->
  fst (__getslice__ fuel i j s) = Return bytes ->
  len bytes = j - i.
Proof.
  intros Hc Hij Hwin. destruct (is_valid (heap s r)) eqn:Hv.
  - destruct (Z_le_gt_dec (ofs_begin (heap s r)) i) as [Hb|Hb];
      [destruct (Z_lt_le_dec j (ofs_end (heap s r))) as [He|He]|].
    + rewrite (getslice_fast_path fuel r) by assumption. cbn. intros [= <-].
      unfold str_getslice, slice_bound, len in *.
      destruct (Z.ltb_spec (i - ofs_begin (heap s r)) 0) as [?|_]; [lia|].
      destruct (Z.ltb_spec (j - ofs_begin (heap s r)) 0) as [?|_]; [lia|].
      rewrite length_firstn, length_skipn. lia.
    + rewrite (getslice_slow_path fuel r) by (trivial; lia).
      intros Hrun. apply slow_path_length in Hrun; [|lia]. cbn in Hrun. lia.
    + rewrite (getslice_slow_path fuel r) by (trivial; lia).
      intros Hrun. apply slow_path_length in Hrun; [|lia]. cbn in Hrun. lia.
  - run. rewrite Hc, Hv. discriminate.
Qed.

(** X3: a range read asks for a relocation exactly when the range holds a
    byte and does not lie inside of the window short of its end. *)
Theorem getslice_relocates_iff (fuel : nat) (r : ref) (i j : Z) (s : state C) :
  _c s = Some r -> is_valid (heap s r) = true ->
  calls (snd (__getslice__ (S fuel) i j s)) = calls s <->
  (ofs_begin (heap s r) <= i /\ j < ofs_end (heap s r)) \/ i = j.
Proof.
  intros Hc Hv. split.
  - intros Hcalls.
    destruct (Z_le_gt_dec (ofs_begin (heap s r)) i) as [Hb|Hb];
      [destruct (Z_lt_le_dec j (ofs_end (heap s r))) as [He|He]; [now left|]|];
      (destruct (Z.eq_dec i j) as [Hij|Hij]; [now right|]);
      rewrite (getslice_slow_path _ r) in Hcalls by (trivial; lia);
      (destruct (slow_path_first_call fuel r (j - i) i [] s) as (rs & Hrs); [lia|]);
      rewrite Hrs in Hcalls;
      rewrite <- (app_nil_r (calls s)) in Hcalls at 2;
      apply app_inv_head in Hcalls; discriminate.
  - intros [[Hb He]| <-].
    + now rewrite (getslice_fast_path _ r) by assumption.
    + destruct (Z_le_gt_dec (ofs_begin (heap s r)) i) as [Hb|Hb];
        [destruct (Z_lt_le_dec i (ofs_end (heap s r))) as [He|He]|].
      * now rewrite (getslice_fast_path _ r) by assumption.
      * rewrite (getslice_slow_path _ r), Z.sub_diag by (trivial; lia).
        now rewrite slow_path_done.
      * rewrite (getslice_slow_path _ r), Z.sub_diag by (trivial; lia).
        now rewrite slow_path_done.
Qed.

(** X4: a range given backwards that lies inside of the window yields the
    empty sequence, as a Python slice does, and moves nothing. *)
Theorem getslice_reversed_in_window (fuel : nat) (r : ref) (i j : Z) (s : state C) :
  _c s = Some r -> is_valid (heap s r) = true ->
  ofs_begin (heap s r) <= j -> j <= i -> j < ofs_end (heap s r) ->
  __getslice__ fuel i j s = (Return [], s).
Proof.
  intros Hc Hv Hb Hji He.
  rewrite (getslice_fast_path fuel r) by (trivial; lia).
  now rewrite getslice_reversed by lia.
Qed.

(** X5: the loop has one way out, a remaining length of zero: over a cursor
    that, asked to relocate to [ofs], keeps exposing no byte, it turns
    forever. *)
Theorem slow_path_stalls (P : C -> Prop) (r : ref) (l ofs : Z) (md : str) (s : state C) :
  (forall c, P c -> P (use_region c ofs l 0) /\ buffer (use_region c ofs l 0) = []) ->
  P (heap s r) -> l <> 0 ->
  diverges (fun fuel => slow_path fuel (Some r) l ofs md) s.
Proof.
  intros Hstall HP Hl fuel. revert md s HP.
  induction fuel as [|fuel IH]; intros md s HP; cbn [slow_path];
    (destruct (Z.eqb_spec l 0) as [?|_]; [contradiction|]); [reflexivity|].
  run. rewrite upd_same.
  destruct (Hstall _ HP) as [HP' Hempty].
  rewrite Hempty, getslice_of_nothing. cbn [len length Z.of_nat].
  rewrite Z.sub_0_r, Z.add_0_r. apply IH. cbn. now rewrite upd_same.
Qed.

End Footprint.

(** ** Reading anywhere in the resource *)

Lemma sliding_use_region_valid (data : str) (c : SlidingCursor) (offset size flags : Z) :
  sliding_inv data c -> 0 <= offset < len data ->
  is_valid (use_region c offset size flags) = true.
Proof.
  intros [Hr _] Ho. cbn. unfold sc_use_region. rewrite Hr.
  destruct (Z.leb_spec 0 offset); [|lia].
  destruct (Z.ltb_spec offset (len data)); [|lia].
  reflexivity.
Qed.

Section Anywhere.
Context {C : Type} {cursor_ops : MemoryCursor C}.
Context (data : str) (Inv : C -> Prop) {contract : CursorContract data Inv}.

Lemma getitem_value (r : ref) (i : Z) (s : state C) :
  _c s = Some r -> is_valid (heap s r) = true -> Inv (heap s r) ->
  0 <= i < len data ->
  exists x, nth_error data (Z.to_nat i) = Some x /\ fst (__getitem__ i s) = Return x.
Proof.
  intros Hc Hv HI Hi.
  destruct (includes_ofs (heap s r) i) eqn:Hinc.
  - rewrite (includes_ofs_window _ _ HI) in Hinc.
    apply andb_prop in Hinc as [Hb He].
    apply Z.leb_le in Hb. apply Z.ltb_lt in He.
    destruct (getitem_in_window data Inv r i s Hc Hv HI) as (x & Hx & Hrun); [lia|].
    exists x. now rewrite Hrun.
  - destruct (nth_error data (Z.to_nat i)) as [x|] eqn:Hx.
    + exists x. split; [reflexivity|].
      run. rewrite Hc, Hv, Hinc. cbn. rewrite upd_same.
      set (c' := use_region (heap s r) i 1 0).
      assert (Inv c') as HI' by now apply use_region_inv.
      destruct (use_region_covers (heap s r) i 1 0 HI) as [Hb He]; [lia|lia|].
      fold c' in Hb, He.
      now rewrite (buffer_window _ HI'), Hb, getitem_sublist, Hx by lia.
    + apply nth_error_None in Hx. unfold len in Hi. lia.
Qed.

(** X6: a single-byte read at a position of the resource returns the byte at
    that position: in place when the window includes the position, and
    after the one relocation [use_region(i, 1)] when it does not. *)
Theorem getitem_reads (r : ref) (i : Z) (s : state C) :
  _c s = Some r -> is_valid (heap s r) = true -> Inv (heap s r) ->
  0 <= i < len data ->
  exists x,
    nth_error data (Z.to_nat i) = Some x /\
    fst (__getitem__ i s) = Return x /\
    calls (snd (__getitem__ i s))
    = calls s ++ (if includes_ofs (heap s r) i then [] else [UseRegion r i 1 0]).
Proof.
  intros Hc Hv HI Hi.
  destruct (getitem_value r i s Hc Hv HI Hi) as (x & Hx & Hrun).
  exists x. split; [assumption|]. split; [assumption|].
  run. rewrite Hc, Hv. cbn.
  destruct (includes_ofs (heap s r) i); cbn;
    match goal with |- context [str_getitem ?b ?k] => destruct (str_getitem b k) end;
    cbn; now rewrite ?app_nil_r.
Qed.

(** X7: a single-byte read and the range read of that one byte agree, at
    every position of the resource. *)
Theorem getitem_is_unit_slice (fuel : nat) (r : ref) (i : Z) (s : state C) :
  _c s = Some r -> is_valid (heap s r) = true -> Inv (heap s r) ->
  0 <= i < len data ->
  exists x,
    fst (__getitem__ i s) = Return x /\
    fst (__getslice__ (S fuel) i (i + 1) s) = Return [x].
Proof.
  intros Hc Hv HI Hi.
  destruct (getitem_value r i s Hc Hv HI Hi) as (x & Hx & Hrun).
  exists x. split; [assumption|].
  destruct (getslice_reads data Inv (S fuel) r i (i + 1) s) as (s' & Hslice & _);
    trivial; try lia.
  rewrite Hslice. cbn [fst].
  change (i + 1) with (i + Z.of_nat 1).
  rewrite (sublist_cons data i 0 x) by (trivial; lia).
  now rewrite sublist_empty by (cbn; lia).
Qed.

(** X8: indices are absolute positions of the resource: once [begin_access]
    has returned [True], at whatever offset, [slice(i, j)] returns the bytes
    [[i, j)] of the resource, and [slice(0, n)] its first [n] bytes. *)
Theorem bind_then_read (fuel : nat) (r : ref) (offset size flags i j : Z) (s : state C) :
  Inv (heap s r) ->
  fst (begin_access (Some r) offset size flags s) = Return true ->
  0 <= i <= j -> j <= len data -> (Z.to_nat (j - i) <= fuel)%nat ->
  fst (__getslice__ fuel i j (snd (begin_access (Some r) offset size flags s)))
  = Return (sublist data i j).
Proof.
  intros HI Hok Hij Hj Hfuel.
  assert (exists s1, begin_access (Some r) offset size flags s = (Return true, s1) /\
                     _c s1 = Some r /\ is_valid (heap s1 r) = true /\ Inv (heap s1 r))
    as (s1 & Hrun & Hc1 & Hv1 & HI1).
  { revert Hok. run. destruct (is_associated (heap s r)); cbn; [|discriminate].
    rewrite upd_same. intros [= Hv]. rewrite Hv. eexists. split; [reflexivity|].
    cbn. rewrite upd_same. repeat split; trivial. now apply use_region_inv. }
  rewrite Hrun. cbn [snd].
  destruct (getslice_reads data Inv fuel r i j s1) as (s' & Hslice & _); trivial.
  now rewrite Hslice.
Qed.

(** From here on a relocation to a position of the resource leaves the
    cursor valid. *)
Hypothesis use_region_valid : forall c offset size flags,
  Inv c -> 0 <= offset < len data -> 0 < size ->
  is_valid (use_region c offset size flags) = true.

Lemma slow_path_keeps_bound (fuel : nat) :
  forall (r : ref) (l ofs : Z) (md : str) (s : state C),
    Inv (heap s r) -> is_valid (heap s r) = true ->
    0 <= ofs -> 0 <= l -> ofs + l <= len data ->
    let s' := snd (slow_path fuel (Some r) l ofs md s) in
    Inv (heap s' r) /\ is_valid (heap s' r) = true.
Proof.
  induction fuel as [|fuel IH]; intros r l ofs md s HI Hv Hofs Hl Hend;
    cbn [slow_path]; (destruct (Z.eqb_spec l 0) as [->|Hl0]; [now split|]);
    [now split|].
  run. rewrite upd_same.
  set (c' := use_region (heap s r) ofs l 0).
  assert (Inv c') as HI' by now apply use_region_inv.
  assert (is_valid c' = true) as Hv' by (apply use_region_valid; trivial; lia).
  destruct (use_region_covers (heap s r) ofs l 0 HI) as [Hb He]; [lia|lia|].
  fold c' in Hb, He.
  destruct (window_in_resource c' HI') as [Hw1 Hw2].
  rewrite (buffer_window c' HI'), Hb.
  rewrite len_getslice_prefix, len_sublist by lia.
  apply IH; cbn; rewrite ?upd_same; trivial; lia.
Qed.

(** X9: reads keep the buffer bound, so that a resource can be read piece by
    piece: [slice(i, j)] followed by [slice(j, k)] yields, put together,
    what the single read [slice(i, k)] yields. *)
Theorem chunked_reads_compose (fuel : nat) (r : ref) (i j k : Z) (s : state C) :
  _c s = Some r -> is_valid (heap s r) = true -> Inv (heap s r) ->
  0 <= i <= j -> j <= k -> k <= len data -> (Z.to_nat (k - i) <= fuel)%nat ->
  fst (bind (__getslice__ fuel i j)
         (fun a => bind (__getslice__ fuel j k) (fun b => ret (a ++ b))) s)
  = Return (sublist data i k) /\
  fst (__getslice__ fuel i k s) = Return (sublist data i k).
Proof.
  intros Hc Hv HI Hij Hjk Hk Hfuel. split.
  - destruct (getslice_reads data Inv fuel r i j s) as (s1 & Hrun1 & Hc1 & HI1 & _);
      trivial; try lia.
    assert (is_valid (heap s1 r) = true) as Hv1.
    { replace s1 with (snd (__getslice__ fuel i j s)) by now rewrite Hrun1.
      destruct (Z_le_gt_dec (ofs_begin (heap s r)) i) as [Hb|Hb];
        [destruct (Z_lt_le_dec j (ofs_end (heap s r))) as [He|He]|].
      - now rewrite (getslice_fast_path fuel r) by assumption.
      - rewrite (getslice_slow_path fuel r) by (trivial; lia).
        apply slow_path_keeps_bound; trivial; lia.
      - rewrite (getslice_slow_path fuel r) by (trivial; lia).
        apply slow_path_keeps_bound; trivial; lia. }
    destruct (getslice_reads data Inv fuel r j k s1) as (s2 & Hrun2 & _);
      trivial; try lia; [congruence|].
    unfold bind at 1. rewrite Hrun1. unfold bind. rewrite Hrun2. cbn.
    now rewrite sublist_app by lia.
  - destruct (getslice_reads data Inv fuel r i k s) as (s' & Hrun & _);
      trivial; try lia.
    now rewrite Hrun.
Qed.

(** X16: a read leaves the window over the position it read: the same
    single-byte read, made again, returns the same byte in place, with no
    further call to the cursor. *)
Theorem getitem_again_in_place (r : ref) (i : Z) (s : state C) :
  _c s = Some r -> is_valid (heap s r) = true -> Inv (heap s r) ->
  0 <= i < len data ->
  exists x,
    fst (bind (__getitem__ i) (fun a => bind (__getitem__ i) (fun b => ret (a, b))) s)
    = Return (x, x) /\
    calls (snd (bind (__getitem__ i)
                  (fun a => bind (__getitem__ i) (fun b => ret (a, b))) s))
    = calls (snd (__getitem__ i s)).
Proof.
  intros Hc Hv HI Hi.
  assert (exists x s1, __getitem__ i s = (Return x, s1) /\
                       nth_error data (Z.to_nat i) = Some x /\
                       _c s1 = Some r /\ is_valid (heap s1 r) = true /\
                       Inv (heap s1 r) /\
                       ofs_begin (heap s1 r) <= i < ofs_end (heap s1 r))
    as (x & s1 & Hrun & Hx & Hc1 & Hv1 & HI1 & Hin).
  { destruct (includes_ofs (heap s r) i) eqn:Hinc.
    - pose proof Hinc as Hwin. rewrite (includes_ofs_window _ _ HI) in Hwin.
      apply andb_prop in Hwin as [Hb He].
      apply Z.leb_le in Hb. apply Z.ltb_lt in He.
      destruct (getitem_in_window data Inv r i s Hc Hv HI) as (x & Hx & Hrun); [lia|].
      exists x, s. repeat split; trivial.
    - destruct (getitem_value r i s Hc Hv HI Hi) as (x & Hx & Hfst).
      revert Hfst. run. rewrite Hc, Hv, Hinc. cbn. rewrite upd_same.
      set (c' := use_region (heap s r) i 1 0).
      assert (Inv c') as HI' by now apply use_region_inv.
      destruct (use_region_covers (heap s r) i 1 0 HI) as [Hb He]; [lia|lia|].
      fold c' in Hb, He.
      destruct (str_getitem (buffer c') (i - ofs_begin c')) as [y|]; cbn;
        [|discriminate].
      intros [= ->]. do 2 eexists. split; [reflexivity|]. cbn. rewrite upd_same.
      repeat split; trivial; try lia.
      apply use_region_valid; trivial; lia. }
  destruct (getitem_in_window data Inv r i s1 Hc1 Hv1 HI1 Hin) as (y & Hy & Hrun2).
  assert (y = x) as -> by congruence.
  exists x. unfold bind at 1 3. rewrite Hrun. unfold bind. rewrite Hrun2.
  split; reflexivity.
Qed.

End Anywhere.

(** ** Relocations and windows *)

Section Windows.
Context {C : Type} {cursor_ops : MemoryCursor C}.
Context (W : Z) (P : C -> Prop).
Hypothesis window_at_most : forall c offset size,
  P c ->
  P (use_region c offset size 0) /\ len (buffer (use_region c offset size 0)) <= W.

Lemma slow_path_relocations (fuel : nat) :
  forall (r : ref) (l ofs : Z) (md bytes : str) (s : state C),
    P (heap s r) -> 0 <= l ->
    fst (slow_path fuel (Some r) l ofs md s) = Return bytes ->
    exists rs,
      calls (snd (slow_path fuel (Some r) l ofs md s)) = calls s ++ rs /\
      l <= W * len rs.
Proof.
  induction fuel as [|fuel IH]; intros r l ofs md bytes s HP Hl; cbn [slow_path];
    (destruct (Z.eqb_spec l 0) as [->|Hl0];
     [intros _; exists []; cbn; rewrite app_nil_r; split; [reflexivity|lia]|]).
  - discriminate.
  - run. rewrite upd_same. intros Hrun.
    destruct (window_at_most (heap s r) ofs l HP) as [HP' Hw].
    pose proof (len_getslice_prefix (buffer (use_region (heap s r) ofs l 0)) l Hl) as Hd.
    apply IH in Hrun as (rs & Hrs & Hcount);
      [| cbn; now rewrite upd_same | lia].
    cbn [calls] in Hrs. exists (UseRegion r ofs l 0 :: rs).
    rewrite Hrs, <- app_assoc. split; [reflexivity|].
    unfold len in *. cbn [length]. lia.
Qed.

(** X10: each relocation contributes at most one window of bytes: a range
    read that goes by the slow path and returns has asked for at least
    [(j - i) / W] relocations, when no window holds more than [W] bytes. *)
Theorem getslice_relocation_count (fuel : nat) (r : ref) (i j : Z) (bytes : str) (s : state C) :
  _c s = Some r -> is_valid (heap s r) = true -> P (heap s r) -> i <= j ->
  i < ofs_begin (heap s r) \/ ofs_end (heap s r) <= j ->
  fst (__getslice__ fuel i j s) = Return bytes ->
  exists rs,
    calls (snd (__getslice__ fuel i j s)) = calls s ++ rs /\
    Forall (relocation_of r) rs /\
    j - i <= W * len rs.
Proof.
  intros Hc Hv HP Hij Hslow. rewrite (getslice_slow_path fuel r) by assumption.
  intros Hrun.
  destruct (slow_path_relocations fuel r (j - i) i [] bytes s) as (rs & Hrs & Hcount);
    [assumption | lia | assumption |].
  destruct (slow_path_footprint fuel r (j - i) i [] s) as [(rs' & Hrs' & Hall) _].
  exists rs. split; [assumption|]. split; [|assumption].
  rewrite Hrs in Hrs'. apply app_inv_head in Hrs'. now subst rs'.
Qed.

End Windows.

(** ** Binding, releasing and binding again *)

Section Rebinding.
Context {C : Type} {cursor_ops : MemoryCursor C}.

(** X11: after [end_access] the cursor is still stored: a [begin_access]
    without a cursor relocates that same cursor, provided that the release
    left it associated, and reports whether it is valid again. *)
Theorem rebind_after_release (r : ref) (offset size flags : Z) (s : state C) :
  _c s = Some r -> is_associated (unuse_region (heap s r)) = true ->
  let released := unuse_region (heap s r) in
  let s' := snd (bind end_access (fun _ => begin_access None offset size flags) s) in
  fst (bind end_access (fun _ => begin_access None offset size flags) s)
  = Return (is_valid (use_region released offset size flags)) /\
  _c s' = Some r /\
  heap s' r = use_region released offset size flags /\
  calls s' = calls s ++ [UnuseRegion r; UseRegion r offset size flags].
Proof.
  intros Hc Ha. run. rewrite Hc. cbn. rewrite Hc. cbn.
  rewrite !upd_same, Ha. cbn. rewrite !upd_same, <- app_assoc.
  repeat split.
Qed.

(** X12: once [end_access] was called, and the cursor gave up its window, a
    read fails on its assertion until [begin_access] is called again. *)
Theorem read_after_release (fuel : nat) (r : ref) (i j : Z) (s : state C) :
  _c s = Some r -> is_valid (unuse_region (heap s r)) = false ->
  bind end_access (fun _ => __getitem__ i) s
  = (Raise AssertionError, snd (end_access s)) /\
  bind end_access (fun _ => __getslice__ fuel i j) s
  = (Raise AssertionError, snd (end_access s)) /\
  calls (snd (end_access s)) = calls s ++ [UnuseRegion r].
Proof.
  intros Hc Hv. run. rewrite Hc. cbn. rewrite Hc. cbn. rewrite upd_same, Hv.
  repeat split.
Qed.

(** X13: a [begin_access] with another cursor replaces the stored one, bound
    or not, and neither it nor the [end_access] that follows touches or
    releases the cursor that was stored before. *)
Theorem rebind_leaves_old_cursor (r1 r2 : ref) (offset size flags : Z) (s : state C) :
  _c s = Some r1 -> r2 <> r1 ->
  let s1 := snd (begin_access (Some r2) offset size flags s) in
  let s2 := snd (end_access s1) in
  _c s1 = Some r2 /\
  heap s2 r1 = heap s r1 /\
  exists rs, calls s2 = calls s ++ rs /\ ~ In (UnuseRegion r1) rs.
Proof.
  intros Hc Hneq. run.
  destruct (is_associated (heap s r2)); cbn;
    (split; [reflexivity|]);
    (split; [now rewrite !upd_other by congruence|]).
  - exists [UseRegion r2 offset size flags; UnuseRegion r2].
    rewrite <- app_assoc. split; [reflexivity|].
    intros [H|[H|[]]]; congruence.
  - exists [UnuseRegion r2]. split; [reflexivity|].
    intros [H|[]]; congruence.
Qed.

(** X14: a buffer constructed with a cursor stores it whether the construction
    succeeds or raises, and its destructor releases that cursor once:
    between them they issue the relocation, if the cursor is associated,
    and then the release. *)
Theorem construct_then_destroy (r : ref) (offset size flags : Z) (s : state C) :
  let s1 := snd (__init__ (Some r) offset size flags s) in
  _c s1 = Some r /\
  calls (snd (__del__ s1))
  = calls s ++ (if is_associated (heap s r)
                then [UseRegion r offset size flags] else [])
            ++ [UnuseRegion r].
Proof.
  run. destruct (is_associated (heap s r)); cbn.
  - rewrite upd_same.
    destruct (is_valid (use_region (heap s r) offset size flags)); cbn;
      now rewrite <- app_assoc.
  - split; reflexivity.
Qed.

(** X15: to construct the buffer without a cursor and to bind it afterwards
    comes to the same as to construct it with the cursor: the same state,
    and [False] from [begin_access] where the constructor raises. *)
Theorem deferred_bind (r : ref) (offset size flags offset' size' flags' : Z) (s : state C) :
  let later := bind (__init__ None offset' size' flags')
                 (fun _ => begin_access (Some r) offset size flags) s in
  let at_once := __init__ (Some r) offset size flags s in
  snd later = snd at_once /\
  exists ok : bool,
    fst later = Return ok /\
    fst at_once = (if ok then Return tt else Raise ValueError).
Proof.
  run. destruct (is_associated (heap s r)); cbn.
  - rewrite upd_same.
    destruct (is_valid (use_region (heap s r) offset size flags)); cbn;
      (split; [reflexivity|]); eexists; split; reflexivity.
  - split; [reflexivity|]. exists false. split; reflexivity.
Qed.

End Rebinding.

(** ** The further properties on the sample buffer *)

Lemma len_sublist_le (data : str) (a b : Z) : a <= b -> len (sublist data a b) <= b - a.
Proof.
  intros Hab. unfold sublist, len. rewrite length_firstn. lia.
Qed.

(** The windows of a sliding cursor hold no more bytes than its window
    size, if that is at least one. *)
Lemma sliding_window_at_most (data : str) (W : Z) (c : SlidingCursor) (offset size : Z) :
  1 <= W ->
  resource c = Some data /\ window_size c = W ->
  (resource (use_region c offset size 0) = Some data /\
   window_size (use_region c offset size 0) = W) /\
  len (buffer (use_region c offset size 0)) <= W.
Proof.
  intros HW [Hr Hs]. cbn. unfold sc_use_region. rewrite Hr.
  destruct ((0 <=? offset) && (offset <? len data)); cbn.
  - split; [now split|]. unfold sc_buffer. cbn.
    pose proof (len_sublist_le data offset
                  (offset + Z.max 1 (Z.min size (Z.min (window_size c) (len data - offset))))).
    lia.
  - split; [now split|]. unfold sc_buffer. cbn. lia.
Qed.

Lemma read_footprint_witness :
  exists rs,
    calls (snd (__getslice__ 10 0 10
                  (sample_state (Some 0%nat) (sample_cursor (Some (0, 4))))))
    = calls (sample_state (Some 0%nat) (sample_cursor (Some (0, 4)))) ++ rs /\
    Forall (relocation_of 0%nat) rs.
Proof.
  apply (read_footprint 10 0%nat 0 10
           (sample_state (Some 0%nat) (sample_cursor (Some (0, 4))))).
  reflexivity.
Defined.

Lemma getslice_exact_length_witness :
  len (sublist sample_data 2 9) = 9 - 2.
Proof.
  apply (getslice_exact_length 7 0%nat 2 9 (sublist sample_data 2 9)
           (sample_state (Some 0%nat) (sample_cursor (Some (0, 4))))).
  - reflexivity.
  - lia.
  - vm_compute. discriminate.
  - reflexivity.
Defined.

Lemma getslice_relocates_iff_witness :
  calls (snd (__getslice__ 1 1 3
                (sample_state (Some 0%nat) (sample_cursor (Some (0, 4))))))
  = calls (sample_state (Some 0%nat) (sample_cursor (Some (0, 4)))) <->
  (ofs_begin (sample_cursor (Some (0, 4))) <= 1 /\
   3 < ofs_end (sample_cursor (Some (0, 4)))) \/ 1 = 3.
Proof.
  apply (getslice_relocates_iff 0 0%nat 1 3
           (sample_state (Some 0%nat) (sample_cursor (Some (0, 4))))).
  - reflexivity.
  - reflexivity.
Defined.

Lemma getslice_reversed_in_window_witness :
  __getslice__ 5 3 1 (sample_state (Some 0%nat) (sample_cursor (Some (0, 4))))
  = (Return [], sample_state (Some 0%nat) (sample_cursor (Some (0, 4)))).
Proof.
  apply (getslice_reversed_in_window 5 0%nat 3 1
           (sample_state (Some 0%nat) (sample_cursor (Some (0, 4))))).
  - reflexivity.
  - reflexivity.
  - cbn. lia.
  - lia.
  - cbn. lia.
Defined.

Lemma slow_path_stalls_witness :
  diverges (fun fuel => slow_path fuel (Some 0%nat) 10 10 [])
           (sample_state (Some 0%nat) (sample_cursor (Some (9, 10)))).
Proof.
  apply (slow_path_stalls (fun c => resource c = Some sample_data) 0%nat 10 10 []
           (sample_state (Some 0%nat) (sample_cursor (Some (9, 10))))).
  - intros c Hr. cbn. unfold sc_use_region. rewrite Hr. cbn. split; reflexivity.
  - reflexivity.
  - lia.
Defined.

Lemma getitem_reads_witness :
  exists x,
    nth_error sample_data (Z.to_nat 7) = Some x /\
    fst (__getitem__ 7 (sample_state (Some 0%nat) (sample_cursor (Some (0, 4)))))
    = Return x /\
    calls (snd (__getitem__ 7 (sample_state (Some 0%nat) (sample_cursor (Some (0, 4))))))
    = [] ++ (if includes_ofs (sample_cursor (Some (0, 4))) 7
             then [] else [UseRegion 0%nat 7 1 0]).
Proof.
  apply (getitem_reads sample_data (sliding_inv sample_data)
           (contract := sliding_contract sample_data) 0%nat 7
           (sample_state (Some 0%nat) (sample_cursor (Some (0, 4))))).
  - reflexivity.
  - reflexivity.
  - split; [reflexivity|]. cbn. lia.
  - cbn. lia.
Defined.

Lemma getitem_is_unit_slice_witness :
  exists x,
    fst (__getitem__ 7 (sample_state (Some 0%nat) (sample_cursor (Some (0, 4)))))
    = Return x /\
    fst (__getslice__ 1 7 (7 + 1)
           (sample_state (Some 0%nat) (sample_cursor (Some (0, 4)))))
    = Return [x].
Proof.
  apply (getitem_is_unit_slice sample_data (sliding_inv sample_data)
           (contract := sliding_contract sample_data) 0 0%nat 7
           (sample_state (Some 0%nat) (sample_cursor (Some (0, 4))))).
  - reflexivity.
  - reflexivity.
  - split; [reflexivity|]. cbn. lia.
  - cbn. lia.
Defined.

(** Bound at offset five, the buffer still reads the first three bytes
    of the resource at the indices zero to three. *)
Lemma bind_then_read_witness :
  fst (__getslice__ 3 0 3
         (snd (begin_access (Some 0%nat) 5 sys_maxint 0
                 (sample_state None (sample_cursor None)))))
  = Return (sublist sample_data 0 3).
Proof.
  apply (bind_then_read sample_data (sliding_inv sample_data)
           (contract := sliding_contract sample_data) 3 0%nat 5 sys_maxint 0 0 3
           (sample_state None (sample_cursor None))).
  - split; [reflexivity|]. exact I.
  - reflexivity.
  - lia.
  - cbn. lia.
  - cbn. lia.
Defined.

Lemma chunked_reads_compose_witness :
  fst (bind (__getslice__ 10 0 6)
         (fun a => bind (__getslice__ 10 6 10) (fun b => ret (a ++ b)))
         (sample_state (Some 0%nat) (sample_cursor (Some (0, 4)))))
  = Return (sublist sample_data 0 10) /\
  fst (__getslice__ 10 0 10 (sample_state (Some 0%nat) (sample_cursor (Some (0, 4)))))
  = Return (sublist sample_data 0 10).
Proof.
  apply (chunked_reads_compose sample_data (sliding_inv sample_data)
           (contract := sliding_contract sample_data)
           (fun c offset size flags HI Ho _ =>
              sliding_use_region_valid sample_data c offset size flags HI Ho)
           10 0%nat 0 6 10
           (sample_state (Some 0%nat) (sample_cursor (Some (0, 4))))).
  - reflexivity.
  - reflexivity.
  - split; [reflexivity|]. cbn. lia.
  - lia.
  - lia.
  - cbn. lia.
  - cbn. lia.
Defined.

(** Ten bytes through windows of four take three relocations or more. *)
Lemma getslice_relocation_count_witness :
  exists rs,
    calls (snd (__getslice__ 10 0 10
                  (sample_state (Some 0%nat) (sample_cursor (Some (0, 4))))))
    = calls (sample_state (Some 0%nat) (sample_cursor (Some (0, 4)))) ++ rs /\
    Forall (relocation_of 0%nat) rs /\
    10 - 0 <= 4 * len rs.
Proof.
  apply (getslice_relocation_count 4
           (fun c => resource c = Some sample_data /\ window_size c = 4)
           (fun c offset size => sliding_window_at_most sample_data 4 c offset size
                                   ltac:(lia))
           10 0%nat 0 10 (sublist sample_data 0 10)
           (sample_state (Some 0%nat) (sample_cursor (Some (0, 4))))).
  - reflexivity.
  - reflexivity.
  - split; reflexivity.
  - lia.
  - right. cbn. lia.
  - reflexivity.
Defined.

Lemma rebind_after_release_witness :
  fst (bind end_access (fun _ => begin_access None 6 2 0)
         (sample_state (Some 0%nat) (sample_cursor (Some (0, 4)))))
  = Return (is_valid (use_region (unuse_region (sample_cursor (Some (0, 4)))) 6 2 0)).
Proof.
  apply (rebind_after_release 0%nat 6 2 0
           (sample_state (Some 0%nat) (sample_cursor (Some (0, 4))))).
  - reflexivity.
  - reflexivity.
Defined.

Lemma read_after_release_witness :
  bind end_access (fun _ => __getitem__ 1)
    (sample_state (Some 0%nat) (sample_cursor (Some (0, 4))))
  = (Raise AssertionError,
     snd (end_access (sample_state (Some 0%nat) (sample_cursor (Some (0, 4)))))).
Proof.
  apply (read_after_release 0 0%nat 1 1
           (sample_state (Some 0%nat) (sample_cursor (Some (0, 4))))).
  - reflexivity.
  - reflexivity.
Defined.

Lemma rebind_leaves_old_cursor_witness :
  _c (snd (begin_access (Some 1%nat) 5 2 0
             (sample_state (Some 0%nat) (sample_cursor (Some (0, 4))))))
  = Some 1%nat.
Proof.
  apply (rebind_leaves_old_cursor 0%nat 1%nat 5 2 0
           (sample_state (Some 0%nat) (sample_cursor (Some (0, 4))))).
  - reflexivity.
  - discriminate.
Defined.

Lemma getitem_again_in_place_witness :
  exists x,
    fst (bind (__getitem__ 7) (fun a => bind (__getitem__ 7) (fun b => ret (a, b)))
           (sample_state (Some 0%nat) (sample_cursor (Some (0, 4)))))
    = Return (x, x) /\
    calls (snd (bind (__getitem__ 7)
                  (fun a => bind (__getitem__ 7) (fun b => ret (a, b)))
                  (sample_state (Some 0%nat) (sample_cursor (Some (0, 4))))))
    = calls (snd (__getitem__ 7
                    (sample_state (Some 0%nat) (sample_cursor (Some (0, 4)))))).
Proof.
  apply (getitem_again_in_place sample_data (sliding_inv sample_data)
           (contract := sliding_contract sample_data)
           (fun c offset size flags HI Ho _ =>
              sliding_use_region_valid sample_data c offset size flags HI Ho)
           0%nat 7
           (sample_state (Some 0%nat) (sample_cursor (Some (0, 4))))).
  - reflexivity.
  - reflexivity.
  - split; [reflexivity|]. cbn. lia.
  - cbn. lia.
Defined.
